(** * Events API: the MongoDB connection cache and the /api/events route

    Shallow embedding of
    - [src/unnamed/part_001] and [src/unnamed/part_000]: two variants of the
      [lib/mongodb] module ([MONGODB_URI], the global [MongooseCache] and
      [connectDB]);
    - [src/app/api/events/route.ts]: the [POST] and [GET] route handlers.

    Effects are modelled with a reader/state/exception monad [M]: the
    environment [env] fixes what the outside world answers (the environment
    variable, the outcome of [mongoose.connect], of the Cloudinary upload and
    of the database calls), the state [world] holds the process-wide cache
    object [global.mongoose] (aliased by the module's [cached]), the database
    and the trace of outgoing I/O, and a computation either returns a value
    ([inl]) or throws a JavaScript value ([inr]). *)

From Stdlib Require Import String Ascii List Bool Arith ZArith Lia.
From Stdlib Require Import Sorting.Sorted Sorting.Permutation.
Import ListNotations.
Set Warnings "-register-all".
Open Scope string_scope.
Open Scope nat_scope.

(** ** JavaScript values *)

(** A [File] entry of a multipart form. *)
Record file := mkFile { file_name : string; file_bytes : list Byte.byte }.

(** The JavaScript values the handlers build or receive.  Numbers are kept as
    their JSON lexeme; [JSError name message] is an instance of [Error]
    (or a subclass such as [SyntaxError]). *)
Inductive jsval :=
| JSUndefined
| JSNull
| JSBool (b : bool)
| JSNum (lexeme : string)
| JSStr (s : string)
| JSArr (xs : list jsval)
| JSObj (fields : list (string * jsval))
| JSFile (f : file)
| JSError (name message : string).

(** Property read [o.k] on a plain object: the first field named [k]. *)
Fixpoint obj_get (k : string) (o : list (string * jsval)) : jsval :=
  match o with
  | [] => JSUndefined
  | (k', v) :: o' => if String.eqb k k' then v else obj_get k o'
  end.

(** Property write [o.k = v]: an existing property keeps its position, a new
    one is appended (insertion order of own string keys). *)
Fixpoint obj_set (k : string) (v : jsval) (o : list (string * jsval))
  : list (string * jsval) :=
  match o with
  | [] => [(k, v)]
  | (k', v') :: o' =>
      if String.eqb k k' then (k', v) :: o' else (k', v') :: obj_set k v o'
  end.

Definition prop (k : string) (v : jsval) : jsval :=
  match v with
  | JSObj o => obj_get k o
  | _ => JSUndefined
  end.

(** ** [JSON.parse]

    A recursive-descent parser for the JSON grammar of ECMA-404, over the
    bytes of the text.  Strings are byte strings here: a [\uXXXX] escape is
    accepted as the grammar says and decoded to the byte [XXXX mod 256].
    Fuel bounds the nesting; [3 * length + 3] is more than a text can use,
    since every call below consumes a character or ends. *)

Definition is_ws (c : ascii) : bool :=
  match c with
  | " "%char | "009"%char | "010"%char | "013"%char => true
  | _ => false
  end.

Fixpoint skip_ws (s : list ascii) : list ascii :=
  match s with
  | c :: r => if is_ws c then skip_ws r else s
  | [] => []
  end.

Definition is_digit (c : ascii) : bool :=
  let n := nat_of_ascii c in (48 <=? n) && (n <=? 57).

Definition hex_val (c : ascii) : option nat :=
  let n := nat_of_ascii c in
  if (48 <=? n) && (n <=? 57) then Some (n - 48)
  else if (65 <=? n) && (n <=? 70) then Some (n - 55)
  else if (97 <=? n) && (n <=? 102) then Some (n - 87)
  else None.

(** Body of a string literal after its opening quote: the decoded characters
    and the text after the closing quote. *)
Fixpoint parse_string_body (s : list ascii) : option (list ascii * list ascii) :=
  match s with
  | [] => None
  | c :: r =>
      if Ascii.eqb c "034"%char then Some ([], r)
      else if Ascii.eqb c "\"%char then
        match r with
        | e :: r' =>
            let k := fun d => match parse_string_body r' with
                              | Some (cs, rest) => Some (d :: cs, rest)
                              | None => None
                              end in
            match e with
            | "034"%char => k "034"%char
            | "\"%char => k "\"%char
            | "/"%char => k "/"%char
            | "b"%char => k "008"%char
            | "f"%char => k "012"%char
            | "n"%char => k "010"%char
            | "r"%char => k "013"%char
            | "t"%char => k "009"%char
            | "u"%char =>
                match r' with
                | h1 :: h2 :: h3 :: h4 :: r'' =>
                    match hex_val h1, hex_val h2, hex_val h3, hex_val h4 with
                    | Some a, Some b, Some c3, Some d =>
                        match parse_string_body r'' with
                        | Some (cs, rest) =>
                            Some (ascii_of_nat ((c3 * 16 + d) mod 256) :: cs, rest)
                        | None => None
                        end
                    | _, _, _, _ => None
                    end
                | _ => None
                end
            | _ => None
            end
        | [] => None
        end
      else if nat_of_ascii c <? 32 then None
      else match parse_string_body r with
           | Some (cs, rest) => Some (c :: cs, rest)
           | None => None
           end
  end.

Fixpoint span_digits (s : list ascii) : list ascii * list ascii :=
  match s with
  | c :: r => if is_digit c then let (d, rest) := span_digits r in (c :: d, rest)
              else ([], s)
  | [] => ([], [])
  end.

Definition digits1 (s : list ascii) : option (list ascii * list ascii) :=
  match span_digits s with
  | ([], _) => None
  | (d, rest) => Some (d, rest)
  end.

Definition parse_int_part (s : list ascii) : option (list ascii * list ascii) :=
  match s with
  | "0"%char :: r => Some (["0"%char], r)
  | c :: _ => if is_digit c then digits1 s else None
  | [] => None
  end.

Definition parse_frac (s : list ascii) : option (list ascii * list ascii) :=
  match s with
  | "."%char :: r =>
      match digits1 r with
      | Some (d, rest) => Some ("."%char :: d, rest)
      | None => None
      end
  | _ => Some ([], s)
  end.

Definition parse_exp (s : list ascii) : option (list ascii * list ascii) :=
  let after_e e r :=
    let '(sg, r') := match r with
                     | "+"%char :: r' => (["+"%char], r')
                     | "-"%char :: r' => (["-"%char], r')
                     | _ => ([], r)
                     end in
    match digits1 r' with
    | Some (d, rest) => Some (e :: sg ++ d, rest)
    | None => None
    end in
  match s with
  | "e"%char :: r => after_e "e"%char r
  | "E"%char :: r => after_e "E"%char r
  | _ => Some ([], s)
  end.

Definition parse_number (s : list ascii) : option (jsval * list ascii) :=
  let '(sg, s1) := match s with
                   | "-"%char :: r => (["-"%char], r)
                   | _ => ([], s)
                   end in
  match parse_int_part s1 with
  | Some (i, s2) =>
      match parse_frac s2 with
      | Some (f, s3) =>
          match parse_exp s3 with
          | Some (e, s4) => Some (JSNum (string_of_list_ascii (sg ++ i ++ f ++ e)), s4)
          | None => None
          end
      | None => None
      end
  | None => None
  end.

Fixpoint parse_value (fuel : nat) (s : list ascii) : option (jsval * list ascii) :=
  match fuel with
  | O => None
  | S f =>
      match skip_ws s with
      | "{"%char :: r =>
          match skip_ws r with
          | "}"%char :: r' => Some (JSObj [], r')
          | _ => parse_members f r []
          end
      | "["%char :: r =>
          match skip_ws r with
          | "]"%char :: r' => Some (JSArr [], r')
          | _ => parse_elems f r []
          end
      | "034"%char :: r =>
          match parse_string_body r with
          | Some (cs, rest) => Some (JSStr (string_of_list_ascii cs), rest)
          | None => None
          end
      | "t"%char :: "r"%char :: "u"%char :: "e"%char :: r => Some (JSBool true, r)
      | "f"%char :: "a"%char :: "l"%char :: "s"%char :: "e"%char :: r =>
          Some (JSBool false, r)
      | "n"%char :: "u"%char :: "l"%char :: "l"%char :: r => Some (JSNull, r)
      | s' => parse_number s'
      end
  end
with parse_elems (fuel : nat) (s : list ascii) (acc : list jsval)
  : option (jsval * list ascii) :=
  match fuel with
  | O => None
  | S f =>
      match parse_value f s with
      | Some (v, r) =>
          match skip_ws r with
          | ","%char :: r' => parse_elems f r' (acc ++ [v])
          | "]"%char :: r' => Some (JSArr (acc ++ [v]), r')
          | _ => None
          end
      | None => None
      end
  end
with parse_members (fuel : nat) (s : list ascii) (acc : list (string * jsval))
  : option (jsval * list ascii) :=
  match fuel with
  | O => None
  | S f =>
      match skip_ws s with
      | "034"%char :: r =>
          match parse_string_body r with
          | Some (k, r1) =>
              match skip_ws r1 with
              | ":"%char :: r2 =>
                  match parse_value f r2 with
                  | Some (v, r3) =>
                      let acc' := obj_set (string_of_list_ascii k) v acc in
                      match skip_ws r3 with
                      | ","%char :: r4 => parse_members f r4 acc'
                      | "}"%char :: r4 => Some (JSObj acc', r4)
                      | _ => None
                      end
                  | None => None
                  end
              | _ => None
              end
          | None => None
          end
      | _ => None
      end
  end.

(** [JSON.parse(text)]: the whole text is one value between white space. *)
Definition json_parse_text (text : string) : option jsval :=
  let s := list_ascii_of_string text in
  match parse_value (3 * length s + 3) s with
  | Some (v, rest) =>
      match skip_ws rest with
      | [] => Some v
      | _ => None
      end
  | None => None
  end.

(** A double quote, for building JSON texts. *)
Definition dq : string := String "034"%char EmptyString.

(** ** The world, the environment and the monad *)

(** A connected Mongoose instance, by identity. *)
Definition handle := nat.

(** [MongooseCache]: [{ conn, promise }]; a promise is named by the number
    under which [mongoose.connect] created it. *)
Record MongooseCache := mkCache { conn : option handle; promise : option nat }.

Definition empty_cache : MongooseCache := mkCache None None.

(** A document stored by [Event.create], with the creation time the schema
    stamps on it. *)
Record stored := mkStored { s_fields : list (string * jsval); s_created_at : nat }.

(** Outgoing I/O, in order. *)
Inductive io :=
| IOConnect (uri : string) (p : nat)
| IOUpload (bytes : list Byte.byte)
| IOInsert (doc : list (string * jsval))
| IOFind.

Record world := mkWorld {
  w_cache : MongooseCache;      (** [global.mongoose], the object [cached] aliases *)
  w_next_promise : nat;
  w_store : list stored;        (** the events collection *)
  w_clock : nat;
  w_trace : list io }.

(** What the outside world answers. *)
Record env := mkEnv {
  e_mongodb_uri : option string;             (** [process.env.MONGODB_URI] *)
  e_settle : nat -> handle + jsval;          (** outcome of each connect promise *)
  e_upload : list Byte.byte -> jsval + jsval;(** [upload_stream] callback: result or error *)
  e_create_error : option jsval;             (** [Event.create] rejects with it *)
  e_find_error : option jsval }.             (** [Event.find().sort(..)] rejects with it *)

Definition M (A : Type) : Type := env -> world -> (A + jsval) * world.

Definition ret {A} (a : A) : M A := fun _ w => (inl a, w).
Definition throw {A} (e : jsval) : M A := fun _ w => (inr e, w).
Definition bind {A B} (m : M A) (k : A -> M B) : M B :=
  fun en w => match m en w with
              | (inl a, w') => k a en w'
              | (inr e, w') => (inr e, w')
              end.
(** [try { m } catch (e) { h(e) }] *)
Definition catch {A} (m : M A) (h : jsval -> M A) : M A :=
  fun en w => match m en w with
              | (inl a, w') => (inl a, w')
              | (inr e, w') => h e en w'
              end.
Definition ask : M env := fun en w => (inl en, w).
Definition get : M world := fun _ w => (inl w, w).
Definition put (w : world) : M unit := fun _ _ => (inl tt, w).

Notation "x <- m ;; k" := (bind m (fun x => k)) (at level 61, m at next level, right associativity).
Notation "m ;;; k" := (bind m (fun _ => k)) (at level 61, right associativity).

Definition set_cache (c : MongooseCache) (w : world) : world :=
  mkWorld c (w_next_promise w) (w_store w) (w_clock w) (w_trace w).

Definition modify_cache (f : MongooseCache -> MongooseCache) : M unit :=
  w <- get ;; put (set_cache (f (w_cache w)) w).

Definition set_conn (h : handle) (c : MongooseCache) := mkCache (Some h) (promise c).
Definition set_promise (p : option nat) (c : MongooseCache) := mkCache (conn c) p.

(** [new Error(msg)] *)
Definition config_error : jsval :=
  JSError "Error" "Please define the MONGODB_URI environment variable inside .env.local".

(** [!MONGODB_URI]: undefined and the empty string are both falsy. *)
Definition uri_of (u : option string) : option string :=
  match u with
  | Some s => if String.eqb s EmptyString then None else Some s
  | None => None
  end.

(** [mongoose.connect(uri, { bufferCommands: false }).then(m => m)]: a new
    promise, recorded in the trace. *)
Definition mongoose_connect (uri : string) : M nat :=
  w <- get ;;
  let p := w_next_promise w in
  put (mkWorld (w_cache w) (S p) (w_store w) (w_clock w)
               (w_trace w ++ [IOConnect uri p])) ;;;
  ret p.

(** [await p]: the promise's outcome. *)
Definition await (p : nat) : M handle :=
  en <- ask ;;
  match e_settle en p with
  | inl h => ret h
  | inr e => throw e
  end.

(** Lines 58-65 of part_001 (52-57 of part_000):
    [try { cached.conn = await cached.promise } catch (error) {
       cached.promise = null; throw error } return cached.conn]. *)
Definition await_cached (p : nat) : M handle :=
  catch (h <- await p ;; modify_cache (set_conn h) ;;; ret h)
        (fun e => modify_cache (set_promise None) ;;; throw e).

Module Part001.

(** Module load: [const MONGODB_URI = process.env.MONGODB_URI] and
    [cached = global.mongoose || { conn: null, promise: null }]; nothing here
    can throw. *)
Definition load (g : option MongooseCache) : MongooseCache :=
  match g with
  | Some c => c
  | None => empty_cache
  end.

Definition connectDB : M handle :=
  w <- get ;;
  match conn (w_cache w) with
  | Some h => ret h
  | None =>
      p <- match promise (w_cache w) with
           | Some p => ret p
           | None =>
               en <- ask ;;
               match uri_of (e_mongodb_uri en) with
               | None => throw config_error
               | Some u =>
                   p <- mongoose_connect u ;;
                   modify_cache (set_promise (Some p)) ;;; ret p
               end
           end ;;
      await_cached p
  end.

End Part001.

Module Part000.

(** Module load: the URI check throws at load time. *)
Definition load (u : option string) (g : option MongooseCache)
  : (string * MongooseCache) + jsval :=
  match uri_of u with
  | None => inr config_error
  | Some uri => inl (uri, match g with Some c => c | None => empty_cache end)
  end.

(** [connectDB] over the [MONGODB_URI] the load accepted. *)
Definition connectDB (uri : string) : M handle :=
  w <- get ;;
  match conn (w_cache w) with
  | Some h => ret h
  | None =>
      p <- match promise (w_cache w) with
           | Some p => ret p
           | None =>
               p <- mongoose_connect uri ;;
               modify_cache (set_promise (Some p)) ;;; ret p
           end ;;
      await_cached p
  end.

End Part000.

(** [n] calls in sequence, each result (value or thrown error) kept. *)
Fixpoint run_calls {A} (n : nat) (m : M A) (en : env) (w : world)
  : list (A + jsval) * world :=
  match n with
  | O => ([], w)
  | S n' =>
      let (r, w1) := m en w in
      let (rs, w2) := run_calls n' m en w1 in
      (r :: rs, w2)
  end.

(** The world at process start, with the cache the module load made. *)
Definition initial_world (c : MongooseCache) : world := mkWorld c 0 [] 0 [].

(** ** The database model *)

(** Decimal text of a creation time. *)
Fixpoint decimal_aux (fuel n : nat) (acc : string) : string :=
  match fuel with
  | O => acc
  | S f =>
      let acc' := String (ascii_of_nat (48 + n mod 10)) acc in
      if n <? 10 then acc' else decimal_aux f (n / 10) acc'
  end.

Definition decimal (n : nat) : string := decimal_aux (S n) n EmptyString.

(** A stored event as the ODM returns it. *)
Definition stored_js (sd : stored) : jsval :=
  JSObj (s_fields sd ++ [("createdAt", JSNum (decimal (s_created_at sd)))]).

(** Modelled from the spec: [Event.create(doc)] of [database/event.model]
    (not among the sources).  "Persist the event (merged attribute set plus
    parsed tags and agenda) to the database"; the record gets the "implicit
    creation timestamp used for sort ordering"; [Handle.create(doc) ->
    StoredDoc].  A database failure rejects with the error and stores
    nothing. *)
Definition event_create (doc : list (string * jsval)) : M jsval :=
  en <- ask ;;
  match e_create_error en with
  | Some e => throw e
  | None =>
      w <- get ;;
      let sd := mkStored doc (w_clock w) in
      put (mkWorld (w_cache w) (w_next_promise w) (w_store w ++ [sd])
                   (S (w_clock w)) (w_trace w ++ [IOInsert doc])) ;;;
      ret (stored_js sd)
  end.

(** Insertion into a list ordered by creation time, newest first. *)
Fixpoint insert_desc (x : stored) (l : list stored) : list stored :=
  match l with
  | [] => [x]
  | y :: l' =>
      if s_created_at y <=? s_created_at x then x :: l else y :: insert_desc x l'
  end.

Fixpoint sort_desc (l : list stored) : list stored :=
  match l with
  | [] => []
  | x :: l' => insert_desc x (sort_desc l')
  end.

(** Modelled from the spec: [Event.find().sort({ createdAt: -1 })]
    ([Handle.find().sort({field: -1}) -> sequence of StoredDoc]): "fetches
    all event records ordered by creation time descending (newest first)",
    or rejects with the database error. *)
Definition event_find_sorted : M (list jsval) :=
  en <- ask ;;
  match e_find_error en with
  | Some e => throw e
  | None =>
      w <- get ;;
      put (mkWorld (w_cache w) (w_next_promise w) (w_store w) (w_clock w)
                   (w_trace w ++ [IOFind])) ;;;
      ret (map stored_js (sort_desc (w_store w)))
  end.

(** ** The route: [src/app/api/events/route.ts] *)

(** A [FormDataEntryValue]. *)
Inductive entry := EStr (s : string) | EFile (f : file).

Definition form := list (string * entry).

Definition entry_js (v : entry) : jsval :=
  match v with
  | EStr s => JSStr s
  | EFile f => JSFile f
  end.

(** [formData.get(k)]: the first value under [k], [None] for [null]. *)
Fixpoint form_get (k : string) (fd : form) : option entry :=
  match fd with
  | [] => None
  | (k', v) :: fd' => if String.eqb k k' then Some v else form_get k fd'
  end.

(** [Object.fromEntries(formData.entries())]: later entries overwrite. *)
Definition from_entries (fd : form) : list (string * jsval) :=
  fold_left (fun o kv => obj_set (fst kv) (entry_js (snd kv)) o) fd [].

(** [!file] for [file = formData.get("image")]. *)
Definition entry_falsy (x : option entry) : bool :=
  match x with
  | None => true
  | Some (EStr s) => String.eqb s EmptyString
  | Some (EFile _) => false
  end.

(** [String(x)], the conversion [JSON.parse] applies to its argument. *)
Definition entry_to_string (x : option entry) : string :=
  match x with
  | None => "null"
  | Some (EStr s) => s
  | Some (EFile _) => "[object File]"
  end.

(** The message text of a [SyntaxError] is the engine's; only its kind
    matters here. *)
Definition syntax_error : jsval := JSError "SyntaxError" "Unexpected token in JSON".

(** [JSON.parse(formData.get(k) as string)] *)
Definition json_parse (x : option entry) : M jsval :=
  match json_parse_text (entry_to_string x) with
  | Some v => ret v
  | None => throw syntax_error
  end.

(** [await req.formData()]: a body that is not a form rejects. *)
Definition form_data (req : option form) : M form :=
  match req with
  | Some fd => ret fd
  | None => throw (JSError "TypeError" "Could not parse content as FormData.")
  end.

(** [await file.arrayBuffer()] then [Buffer.from(..)]. *)
Definition array_buffer (x : option entry) : M (list Byte.byte) :=
  match x with
  | Some (EFile f) => ret (file_bytes f)
  | _ => throw (JSError "TypeError" "file.arrayBuffer is not a function")
  end.

(** [new Promise(..upload_stream({ resource_type: "image", folder:
    "DevEvent" }, cb).end(buffer))]: [reject(error)] or [resolve(results)]. *)
Definition upload (buffer : list Byte.byte) : M jsval :=
  w <- get ;;
  put (mkWorld (w_cache w) (w_next_promise w) (w_store w) (w_clock w)
               (w_trace w ++ [IOUpload buffer])) ;;;
  en <- ask ;;
  match e_upload en buffer with
  | inl results => ret results
  | inr error => throw error
  end.

(** [(uploadResult as { secure_url: string }).secure_url] *)
Definition secure_url (r : jsval) : M jsval :=
  match r with
  | JSUndefined | JSNull =>
      throw (JSError "TypeError" "Cannot read properties of undefined (reading 'secure_url')")
  | JSObj o => ret (obj_get "secure_url" o)
  | _ => ret JSUndefined
  end.

(** [e instanceof Error ? e.message : "Unknown"] *)
Definition error_message (e : jsval) : jsval :=
  match e with
  | JSError _ m => JSStr m
  | _ => JSStr "Unknown"
  end.

(** [NextResponse.json(body, { status })] *)
Record response := mkResponse { status : nat; body : jsval }.

Definition msg (m : string) : jsval := JSObj [("message", JSStr m)].

Section Route.

(** The route imports [connectDB] from [lib/mongodb]; the handlers are
    stated over either variant. *)
Variable connectDB : M handle.

(** [console.error(e)] in the outer [catch] only logs and is left out. *)
Definition POST (req : option form) : M response :=
  catch
    (connectDB ;;;
     formData <- form_data req ;;
     r <- catch (ret (inl (from_entries formData)))
                (fun _ => ret (inr (mkResponse 400 (msg "Invalid JSON data format")))) ;;
     match r with
     | inr resp => ret resp
     | inl event =>
         let file := form_get "image" formData in
         if entry_falsy file then ret (mkResponse 400 (msg "Image file is required"))
         else
           tags <- json_parse (form_get "tags" formData) ;;
           agenda <- json_parse (form_get "agenda" formData) ;;
           buffer <- array_buffer file ;;
           uploadResult <- upload buffer ;;
           url <- secure_url uploadResult ;;
           let event := obj_set "image" url event in
           createdEvent <- event_create (obj_set "agenda" agenda (obj_set "tags" tags event)) ;;
           ret (mkResponse 201 (JSObj [("message", JSStr "Event created successfully");
                                       ("event", createdEvent)]))
     end)
    (fun e => ret (mkResponse 500 (JSObj [("message", JSStr "Event Creation Failed");
                                          ("error", error_message e)]))).

Definition GET : M response :=
  catch
    (connectDB ;;;
     events <- event_find_sorted ;;
     ret (mkResponse 200 (JSObj [("message", JSStr "Events fetched successfully");
                                 ("events", JSArr events)])))
    (fun e => ret (mkResponse 500 (JSObj [("message", JSStr "Event fetching failed");
                                          ("error", e)]))).

End Route.

(** The two variants of [lib/mongodb], the second with the URI its load
    accepted. *)
Inductive variant := V001 | V000 (uri : string).

Definition connectDB_of (v : variant) : M handle :=
  match v with
  | V001 => Part001.connectDB
  | V000 uri => Part000.connectDB uri
  end.

(** The URI a variant connects to, if any. *)
Definition variant_uri (v : variant) (en : env) : option string :=
  match v with
  | V001 => uri_of (e_mongodb_uri en)
  | V000 uri => Some uri
  end.

(** ** Fixtures *)

Definition tags_text : string := "[" ++ dq ++ "a" ++ dq ++ "," ++ dq ++ "b" ++ dq ++ "]".
Definition agenda_text : string := "[" ++ dq ++ "x" ++ dq ++ "]".
Definition sample_file : file := mkFile "event.png" [Byte.x89; Byte.x50; Byte.x4e; Byte.x47].
Definition sample_url : string := "https://res.cloudinary.com/demo/image/upload/event.png".

Definition sample_form : form :=
  [("title", EStr "Meetup"); ("image", EFile sample_file);
   ("tags", EStr tags_text); ("agenda", EStr agenda_text)].

Definition sample_env : env :=
  mkEnv (Some "mongodb://localhost/dev") (fun _ => inl 7)
        (fun _ => inl (JSObj [("secure_url", JSStr sample_url)])) None None.

Definition start : world := initial_world (Part001.load None).

(** An environment in which the first connect promise rejects. *)
Definition failing_env : env :=
  mkEnv (Some "mongodb://localhost/dev")
        (fun p => if p =? 0 then inr (JSError "MongoNetworkError" "connect ECONNREFUSED")
                  else inl 7)
        (fun _ => inl JSNull) None None.

Definition no_uri_env : env :=
  mkEnv None (fun _ => inl 7) (fun _ => inl JSNull) None None.

Definition not_json_form : form :=
  [("title", EStr "Meetup"); ("image", EFile sample_file);
   ("tags", EStr "not json"); ("agenda", EStr agenda_text)].

Definition upload_error_env (err : jsval) : env :=
  mkEnv (Some "mongodb://localhost/dev") (fun _ => inl 7) (fun _ => inr err) None None.

Definition image_error : jsval := JSError "Error" "Invalid image file".

Definition no_image_form : form :=
  [("title", EStr "Meetup"); ("tags", EStr tags_text); ("agenda", EStr agenda_text)].

(** Newest first: each record is at least as recent as the next. *)
Definition newer_first (a b : stored) : Prop := s_created_at b <= s_created_at a.

(** [GET]'s 500 answer for a thrown [e]. *)
Definition get_failed (e : jsval) : response :=
  mkResponse 500 (JSObj [("message", JSStr "Event fetching failed"); ("error", e)]).

(** A store of three events inserted at times 0, 1 and 2. *)
Definition three_events : world :=
  mkWorld empty_cache 0
    [mkStored [("title", JSStr "A")] 0; mkStored [("title", JSStr "B")] 1;
     mkStored [("title", JSStr "C")] 2] 3 [].

(** Every value a computation returns (rather than throws) satisfies [P]. *)
Definition only {A} (P : A -> Prop) (m : M A) : Prop :=
  forall en w a w', m en w = (inl a, w') -> P a.

Definition no_tags_form : form :=
  [("title", EStr "Meetup"); ("image", EFile sample_file); ("agenda", EStr agenda_text)].

Ltac unfold_m :=
  unfold connectDB_of, Part001.connectDB, Part000.connectDB, await_cached, await,
    mongoose_connect, modify_cache, set_cache, set_conn, set_promise,
    catch, bind, ret, throw, ask, get, put in *.

Ltac crush_m :=
  repeat match goal with
  | H : (_, _) = (_, _) |- _ => injection H as; subst
  | H : context [match ?x with _ => _ end] |- _ => destruct x eqn:?
  | |- context [match ?x with _ => _ end] => destruct x eqn:?
  end; simpl in *; try congruence.

Ltac unfold_r :=
  unfold POST, GET, form_data, json_parse, array_buffer, upload, secure_url,
    event_create, event_find_sorted, catch, bind, ret, throw, ask, get, put in *.

(** Connection attempts in a trace. *)
Definition is_connect (x : io) : bool :=
  match x with IOConnect _ _ => true | _ => false end.

Definition connects (t : list io) : nat := length (filter is_connect t).

(** Calls that threw. *)
Definition count_inr {A} (rs : list (A + jsval)) : nat :=
  length (filter (fun r => match r with inr _ => true | inl _ => false end) rs).

(** A world whose cache holds the in-flight connect promise [0]. *)
Definition pending_world : world := mkWorld (mkCache None (Some 0)) 1 [] 0 [].

(** The last value under [k] in the form, the one [Object.fromEntries]
    keeps. *)
Fixpoint form_get_last (k : string) (fd : form) : option entry :=
  match fd with
  | [] => None
  | (k', v) :: fd' =>
      match form_get_last k fd' with
      | Some x => Some x
      | None => if String.eqb k k' then Some v else None
      end
  end.

(** A store in insertion order: records with strictly increasing creation
    times, all before the clock. *)
Definition older (a b : stored) : Prop := s_created_at a < s_created_at b.

Definition store_ok (w : world) : Prop :=
  Sorted older (w_store w) /\ Forall (fun sd => s_created_at sd < w_clock w) (w_store w).

(** A form repeating [title] and [tags]. *)
Definition repeated_form : form :=
  [("title", EStr "First"); ("image", EFile sample_file); ("tags", EStr tags_text);
   ("agenda", EStr agenda_text); ("title", EStr "Second"); ("tags", EStr "not json")].

Definition insert_error_env : env :=
  mkEnv (Some "mongodb://localhost/dev") (fun _ => inl 7)
        (fun _ => inl (JSObj [("secure_url", JSStr sample_url)]))
        (Some (JSError "ValidationError" "Event validation failed")) None.

Definition empty_upload_env : env :=
  mkEnv (Some "mongodb://localhost/dev") (fun _ => inl 7) (fun _ => inl JSUndefined) None None.

(** [MONGODB_URI] set to the empty string. *)
Definition empty_uri_env : env :=
  mkEnv (Some EmptyString) (fun _ => inl 7) (fun _ => inl JSNull) None None.

(** An empty [image] text field with unparsable [tags]. *)
Definition empty_image_form : form :=
  [("title", EStr "Meetup"); ("image", EStr EmptyString);
   ("tags", EStr "not json"); ("agenda", EStr agenda_text)].

(** ** Tests *)

Example json_parse_tags :
  json_parse_text ("[" ++ dq ++ "a" ++ dq ++ "," ++ dq ++ "b" ++ dq ++ "]")
  = Some (JSArr [JSStr "a"; JSStr "b"]).
Proof. reflexivity. Qed.

Example json_parse_not_json : json_parse_text "not json" = None.
Proof. reflexivity. Qed.

Example json_parse_null : json_parse_text "null" = Some JSNull.
Proof. reflexivity. Qed.

Example json_parse_obj :
  json_parse_text (" {" ++ dq ++ "k" ++ dq ++ ": [1.5e3, -0, true]} ")
  = Some (JSObj [("k", JSArr [JSNum "1.5e3"; JSNum "-0"; JSBool true])]).
Proof. reflexivity. Qed.

Example post_sample :
  fst (POST Part001.connectDB (Some sample_form) sample_env start)
  = inl (mkResponse 201 (JSObj [("message", JSStr "Event created successfully");
      ("event", JSObj [("title", JSStr "Meetup"); ("image", JSStr sample_url);
                       ("tags", JSArr [JSStr "a"; JSStr "b"]); ("agenda", JSArr [JSStr "x"]);
                       ("createdAt", JSNum "0")])])).
Proof. vm_compute. reflexivity. Qed.

(** ** The connection cache *)

Lemma connectDB_of_cached v en w h :
  conn (w_cache w) = Some h -> connectDB_of v en w = (inl h, w).
Proof. intros Hc. destruct v; unfold_m; rewrite Hc; reflexivity. Qed.

Lemma connectDB_of_success_conn v en w h w' :
  connectDB_of v en w = (inl h, w') -> conn (w_cache w') = Some h.
Proof. destruct v; unfold_m; intros H; crush_m. Qed.

Lemma run_calls_fixed {A} (m : M A) en w r n :
  m en w = (r, w) -> run_calls n m en w = (repeat r n, w).
Proof.
  intros Hm. induction n as [|n IH]; simpl; [reflexivity|].
  rewrite Hm, IH. reflexivity.
Qed.

(** C3: once a call of [connectDB] (either variant) has succeeded with a
    handle, every later call returns that same handle, leaves the world
    unchanged and so starts no connection attempt. *)
Theorem connectDB_idempotent_after_success :
  forall v en w h w',
    connectDB_of v en w = (inl h, w') ->
    forall n, run_calls n (connectDB_of v) en w' = (repeat (inl h) n, w').
Proof.
  intros v en w h w' Hs n.
  apply run_calls_fixed, connectDB_of_cached.
  exact (connectDB_of_success_conn v en w h w' Hs).
Qed.

Lemma connectDB_idempotent_after_success_witness :
  run_calls 3 (connectDB_of V001) sample_env
    (snd (connectDB_of V001 sample_env start))
  = (repeat (inl 7) 3, snd (connectDB_of V001 sample_env start)).
Proof.
  apply (connectDB_idempotent_after_success V001 sample_env start 7).
  vm_compute. reflexivity.
Defined.

(** C8: when a call of [connectDB] (either variant) fails, the cached
    promise is [null] afterwards and no handle is cached, so the next call
    starts a new connection attempt, under a new promise, whenever the
    variant has a URI to connect to. *)
Theorem connectDB_failure_resets_promise :
  forall v en w e w',
    connectDB_of v en w = (inr e, w') ->
    promise (w_cache w') = None /\ conn (w_cache w') = None /\
    forall u, variant_uri v en = Some u ->
      exists r w'', connectDB_of v en w' = (r, w'') /\
        w_trace w'' = (w_trace w' ++ [IOConnect u (w_next_promise w')])%list.
Proof.
  intros v en w e w' H.
  assert (Hc : promise (w_cache w') = None /\ conn (w_cache w') = None).
  { destruct v; unfold_m; crush_m; auto. }
  destruct Hc as [Hp Hn]. split; [exact Hp|]. split; [exact Hn|].
  intros u Hu. destruct v; simpl in Hu; unfold_m; rewrite Hn, Hp;
    [rewrite Hu|injection Hu as <-]; simpl;
    destruct (e_settle en (w_next_promise w')); eexists; eexists; split;
    reflexivity.
Qed.

Lemma connectDB_failure_resets_promise_witness :
  (promise (w_cache (snd (connectDB_of V001 failing_env start))) = None /\
   conn (w_cache (snd (connectDB_of V001 failing_env start))) = None /\
   forall u, variant_uri V001 failing_env = Some u ->
     exists r w'', connectDB_of V001 failing_env (snd (connectDB_of V001 failing_env start))
                   = (r, w'') /\
       w_trace w'' = (w_trace (snd (connectDB_of V001 failing_env start)) ++
         [IOConnect u (w_next_promise (snd (connectDB_of V001 failing_env start)))])%list).
Proof.
  apply (connectDB_failure_resets_promise V001 failing_env start
           (JSError "MongoNetworkError" "connect ECONNREFUSED")).
  vm_compute. reflexivity.
Defined.

(** C2 (as amended): with [MONGODB_URI] unset or empty, the part_001
    variant loads without error and every call of its [connectDB], from
    process start on, throws the configuration error and leaves the world
    unchanged: no connection attempt, no promise; the part_000 variant
    instead throws the configuration error at module load. *)
Theorem connectDB_uri_absent :
  forall en, uri_of (e_mongodb_uri en) = None ->
    (forall n, run_calls n Part001.connectDB en (initial_world (Part001.load None))
               = (repeat (inr config_error) n, initial_world (Part001.load None))) /\
    (forall g, Part000.load (e_mongodb_uri en) g = inr config_error).
Proof.
  intros en Hu. split.
  - intros n. apply run_calls_fixed. unfold_m. simpl. rewrite Hu. reflexivity.
  - intros g. unfold Part000.load. rewrite Hu. reflexivity.
Qed.

Lemma connectDB_uri_absent_witness :
  (forall n, run_calls n Part001.connectDB no_uri_env (initial_world (Part001.load None))
             = (repeat (inr config_error) n, initial_world (Part001.load None))) /\
  (forall g, Part000.load (e_mongodb_uri no_uri_env) g = inr config_error).
Proof. apply connectDB_uri_absent. reflexivity. Defined.

(** C2 as stated fails: in the part_000 variant the missing URI is
    detected at module load, which throws, not at the first call of
    [connectDB]. *)
Lemma connectDB_uri_check_at_load_part000 :
  Part000.load None None = inr config_error.
Proof. reflexivity. Qed.

(** ** The route handlers *)

Lemma obj_get_set_same k v o r : obj_get k (obj_set k v o ++ r) = v.
Proof.
  induction o as [|[k' v'] o IH]; simpl.
  - rewrite String.eqb_refl. reflexivity.
  - destruct (String.eqb k k') eqn:E; simpl; rewrite E; [reflexivity|exact IH].
Qed.

Lemma obj_get_set_other k k' v o r :
  k <> k' -> obj_get k (obj_set k' v o ++ r) = obj_get k (o ++ r).
Proof.
  intros Hne. induction o as [|[k2 v2] o IH]; simpl.
  - apply String.eqb_neq in Hne. rewrite Hne. reflexivity.
  - destruct (String.eqb k' k2) eqn:E; simpl.
    + apply String.eqb_eq in E. subst.
      apply String.eqb_neq in Hne. rewrite Hne. reflexivity.
    + rewrite IH. reflexivity.
Qed.

Lemma json_parse_text_tags : json_parse_text tags_text = Some (JSArr [JSStr "a"; JSStr "b"]).
Proof. reflexivity. Qed.

Lemma json_parse_text_agenda : json_parse_text agenda_text = Some (JSArr [JSStr "x"]).
Proof. reflexivity. Qed.

Lemma json_parse_text_not_json : json_parse_text "not json" = None.
Proof. reflexivity. Qed.

(** C1 (as the code stands): with a working connection and an [image]
    file, [tags = "not json"] makes the [JSON.parse] on line 45 throw a
    [SyntaxError] outside the inner [try]; the outer [catch] answers 500
    "Event Creation Failed", not 400 "Invalid JSON data format". *)
Theorem post_malformed_tags_500 :
  forall cdb en w h w1 fd f,
    cdb en w = (inl h, w1) ->
    form_get "image" fd = Some (EFile f) ->
    form_get "tags" fd = Some (EStr "not json") ->
    POST cdb (Some fd) en w
    = (inl (mkResponse 500 (JSObj [("message", JSStr "Event Creation Failed");
                                   ("error", JSStr "Unexpected token in JSON")])), w1).
Proof.
  intros cdb en w h w1 fd f Hc Hi Ht. unfold_r. rewrite Hc, Hi, Ht. simpl.
  reflexivity.
Qed.

Lemma post_malformed_tags_500_witness :
  POST Part001.connectDB (Some not_json_form) sample_env start
  = (inl (mkResponse 500 (JSObj [("message", JSStr "Event Creation Failed");
                                 ("error", JSStr "Unexpected token in JSON")])),
     snd (Part001.connectDB sample_env start)).
Proof.
  apply (post_malformed_tags_500 Part001.connectDB sample_env start 7
           (snd (Part001.connectDB sample_env start)) not_json_form sample_file);
    vm_compute; reflexivity.
Defined.

(** C4 (as amended): with a working connection, an [image] file and
    parsable [tags] and [agenda], a rejected upload makes [POST] answer 500
    "Event Creation Failed" with the error's [message] when the rejection is
    an [Error] instance and "Unknown" otherwise; the upload is the last I/O:
    nothing is inserted and the store is unchanged. *)
Theorem post_upload_failure_500 :
  forall cdb en w h w1 fd f t a e,
    cdb en w = (inl h, w1) ->
    form_get "image" fd = Some (EFile f) ->
    json_parse_text (entry_to_string (form_get "tags" fd)) = Some t ->
    json_parse_text (entry_to_string (form_get "agenda" fd)) = Some a ->
    e_upload en (file_bytes f) = inr e ->
    POST cdb (Some fd) en w
    = (inl (mkResponse 500 (JSObj [("message", JSStr "Event Creation Failed");
                                   ("error", error_message e)])),
       mkWorld (w_cache w1) (w_next_promise w1) (w_store w1) (w_clock w1)
               (w_trace w1 ++ [IOUpload (file_bytes f)])%list).
Proof.
  intros cdb en w h w1 fd f t a e Hc Hi Ht Ha Hu. unfold_r. rewrite Hc, Hi. simpl.
  rewrite Ht, Ha. simpl. rewrite Hu. reflexivity.
Qed.

Lemma post_upload_failure_500_witness :
  POST Part001.connectDB (Some sample_form) (upload_error_env image_error) start
  = (inl (mkResponse 500 (JSObj [("message", JSStr "Event Creation Failed");
                                 ("error", error_message image_error)])),
     mkWorld (w_cache (snd (Part001.connectDB (upload_error_env image_error) start)))
             (w_next_promise (snd (Part001.connectDB (upload_error_env image_error) start)))
             (w_store (snd (Part001.connectDB (upload_error_env image_error) start)))
             (w_clock (snd (Part001.connectDB (upload_error_env image_error) start)))
             (w_trace (snd (Part001.connectDB (upload_error_env image_error) start))
                ++ [IOUpload (file_bytes sample_file)])%list).
Proof.
  apply (post_upload_failure_500 Part001.connectDB (upload_error_env image_error) start 7
           (snd (Part001.connectDB (upload_error_env image_error) start)) sample_form
           sample_file (JSArr [JSStr "a"; JSStr "b"]) (JSArr [JSStr "x"]) image_error);
    vm_compute; reflexivity.
Defined.

(** C4 as stated fails: an upload rejected with a plain object (not an
    [Error] instance), whose [message] is "Invalid image file", is answered
    with the error text "Unknown". *)
Lemma post_upload_failure_plain_object :
  fst (POST Part001.connectDB (Some sample_form)
            (upload_error_env (JSObj [("message", JSStr "Invalid image file")])) start)
  = inl (mkResponse 500 (JSObj [("message", JSStr "Event Creation Failed");
                                ("error", JSStr "Unknown")])).
Proof. vm_compute. reflexivity. Qed.

(** C5 (as amended): a form with no [image] entry is answered after the
    connection: 400 "Image file is required" if it succeeded, 500 with the
    connection error's message if it failed; in both cases the world is the
    one the connection left: no upload, no insert. *)
Theorem post_missing_image_400 :
  forall cdb en w r w1 fd,
    cdb en w = (r, w1) ->
    form_get "image" fd = None ->
    POST cdb (Some fd) en w =
      (inl (match r with
            | inl _ => mkResponse 400 (msg "Image file is required")
            | inr e => mkResponse 500 (JSObj [("message", JSStr "Event Creation Failed");
                                               ("error", error_message e)])
            end), w1).
Proof.
  intros cdb en w r w1 fd Hc Hi. unfold_r. rewrite Hc.
  destruct r as [h|e]; [rewrite Hi|]; reflexivity.
Qed.

Lemma post_missing_image_400_witness :
  POST Part001.connectDB (Some no_image_form) sample_env start
  = (inl (mkResponse 400 (msg "Image file is required")),
     snd (Part001.connectDB sample_env start)).
Proof.
  apply (post_missing_image_400 Part001.connectDB sample_env start (inl 7)
           (snd (Part001.connectDB sample_env start))); vm_compute; reflexivity.
Defined.

(** C5 as stated fails: the connection is acquired first, so without a
    database URI the same form is answered 500, not 400. *)
Lemma post_missing_image_no_connection :
  fst (POST Part001.connectDB (Some no_image_form) no_uri_env start)
  = inl (mkResponse 500 (JSObj [("message", JSStr "Event Creation Failed");
      ("error", JSStr "Please define the MONGODB_URI environment variable inside .env.local")])).
Proof. vm_compute. reflexivity. Qed.

(** C6 (as amended): with a working connection and database, an [image]
    file, [tags = ["a","b"]], [agenda = ["x"]] and an upload answering an
    object, [POST] answers 201 with the created event, whose [image] is the
    upload's [secure_url], [tags] is [["a","b"]] and [agenda] is [["x"]]. *)
Theorem post_created_event_fields :
  forall cdb en w h w1 fd f o,
    cdb en w = (inl h, w1) ->
    form_get "image" fd = Some (EFile f) ->
    form_get "tags" fd = Some (EStr tags_text) ->
    form_get "agenda" fd = Some (EStr agenda_text) ->
    e_upload en (file_bytes f) = inl (JSObj o) ->
    e_create_error en = None ->
    exists ev w2,
      POST cdb (Some fd) en w
      = (inl (mkResponse 201 (JSObj [("message", JSStr "Event created successfully");
                                     ("event", ev)])), w2) /\
      prop "image" ev = obj_get "secure_url" o /\
      prop "tags" ev = JSArr [JSStr "a"; JSStr "b"] /\
      prop "agenda" ev = JSArr [JSStr "x"].
Proof.
  intros cdb en w h w1 fd f o Hc Hi Ht Ha Hu Hd. unfold_r. rewrite Hc, Hi. simpl.
  rewrite Ht, Ha. unfold entry_to_string.
  rewrite json_parse_text_tags, json_parse_text_agenda. simpl. rewrite Hu, Hd.
  eexists; eexists; split; [reflexivity|]. unfold stored_js, prop. cbn [s_fields].
  rewrite obj_get_set_other, obj_get_set_other, obj_get_set_same by discriminate.
  rewrite obj_get_set_other, obj_get_set_same by discriminate.
  rewrite obj_get_set_same. repeat split; reflexivity.
Qed.

Lemma post_created_event_fields_witness :
  exists ev w2,
    POST Part001.connectDB (Some sample_form) sample_env start
    = (inl (mkResponse 201 (JSObj [("message", JSStr "Event created successfully");
                                   ("event", ev)])), w2) /\
    prop "image" ev = obj_get "secure_url" [("secure_url", JSStr sample_url)] /\
    prop "tags" ev = JSArr [JSStr "a"; JSStr "b"] /\
    prop "agenda" ev = JSArr [JSStr "x"].
Proof.
  apply (post_created_event_fields Part001.connectDB sample_env start 7
           (snd (Part001.connectDB sample_env start)) sample_form sample_file
           [("secure_url", JSStr sample_url)]); vm_compute; reflexivity.
Defined.

(** C6 as stated fails: the same request and upload are answered 500 when
    the database connection cannot be acquired. *)
Lemma post_created_event_no_connection :
  fst (POST Part001.connectDB (Some sample_form) no_uri_env start)
  = inl (mkResponse 500 (JSObj [("message", JSStr "Event Creation Failed");
      ("error", JSStr "Please define the MONGODB_URI environment variable inside .env.local")])).
Proof. vm_compute. reflexivity. Qed.

Lemma insert_desc_perm x l : Permutation (insert_desc x l) (x :: l).
Proof.
  induction l as [|y l IH]; simpl; [reflexivity|].
  destruct (s_created_at y <=? s_created_at x); [reflexivity|].
  rewrite IH. apply perm_swap.
Qed.

Lemma sort_desc_perm l : Permutation (sort_desc l) l.
Proof.
  induction l as [|x l IH]; simpl; [reflexivity|].
  rewrite insert_desc_perm, IH. reflexivity.
Qed.

Lemma insert_desc_hd y x l :
  HdRel newer_first y l -> newer_first y x -> HdRel newer_first y (insert_desc x l).
Proof.
  intros Hh Hyx. destruct l as [|z l]; simpl; [constructor; exact Hyx|].
  destruct (s_created_at z <=? s_created_at x); constructor; [exact Hyx|].
  inversion Hh; assumption.
Qed.

Lemma insert_desc_sorted x l :
  Sorted newer_first l -> Sorted newer_first (insert_desc x l).
Proof.
  induction l as [|y l IH]; intros Hs; simpl.
  - repeat constructor.
  - destruct (s_created_at y <=? s_created_at x) eqn:E.
    + constructor; [exact Hs|]. constructor. unfold newer_first.
      apply Nat.leb_le. exact E.
    + inversion Hs as [|? ? Hs' Hh]; subst. constructor; [exact (IH Hs')|].
      apply insert_desc_hd; [exact Hh|]. unfold newer_first.
      apply Nat.leb_gt in E. lia.
Qed.

Lemma sort_desc_sorted l : Sorted newer_first (sort_desc l).
Proof.
  induction l as [|x l IH]; simpl; [constructor|]. apply insert_desc_sorted, IH.
Qed.

(** C7: [GET] first acquires the connection.  If that throws [e], the answer
    is 500 with [e] as its error payload; if the query throws [e], likewise;
    otherwise the answer is 200 with every stored event, newest first. *)
Theorem get_events_contract :
  forall cdb en w r w1,
    cdb en w = (r, w1) ->
    match r with
    | inr e => GET cdb en w = (inl (get_failed e), w1)
    | inl _ =>
        match e_find_error en with
        | Some e => GET cdb en w = (inl (get_failed e), w1)
        | None =>
            exists evs,
              GET cdb en w
              = (inl (mkResponse 200 (JSObj [("message", JSStr "Events fetched successfully");
                                             ("events", JSArr (map stored_js evs))])),
                 mkWorld (w_cache w1) (w_next_promise w1) (w_store w1) (w_clock w1)
                         (w_trace w1 ++ [IOFind])%list) /\
              Permutation evs (w_store w1) /\ Sorted newer_first evs
        end
    end.
Proof.
  intros cdb en w r w1 Hc. unfold_r. rewrite Hc.
  destruct r as [h|e]; [|reflexivity].
  destruct (e_find_error en) as [e|] eqn:Hf; [reflexivity|].
  exists (sort_desc (w_store w1)). split; [reflexivity|].
  split; [apply sort_desc_perm|apply sort_desc_sorted].
Qed.

Lemma get_events_contract_witness :
  exists evs,
    GET Part001.connectDB sample_env three_events
    = (inl (mkResponse 200 (JSObj [("message", JSStr "Events fetched successfully");
                                   ("events", JSArr (map stored_js evs))])),
       let w1 := snd (Part001.connectDB sample_env three_events) in
       mkWorld (w_cache w1) (w_next_promise w1) (w_store w1) (w_clock w1)
               (w_trace w1 ++ [IOFind])%list) /\
    Permutation evs (w_store (snd (Part001.connectDB sample_env three_events))) /\
    Sorted newer_first evs.
Proof.
  exact (get_events_contract Part001.connectDB sample_env three_events (inl 7)
           (snd (Part001.connectDB sample_env three_events)) eq_refl).
Defined.

Example get_three_events_order :
  fst (GET Part001.connectDB sample_env three_events)
  = inl (mkResponse 200 (JSObj [("message", JSStr "Events fetched successfully");
      ("events", JSArr [JSObj [("title", JSStr "C"); ("createdAt", JSNum "2")];
                        JSObj [("title", JSStr "B"); ("createdAt", JSNum "1")];
                        JSObj [("title", JSStr "A"); ("createdAt", JSNum "0")]])])).
Proof. vm_compute. reflexivity. Qed.

Lemma only_ret {A} (P : A -> Prop) a : P a -> only P (ret a).
Proof. intros Ha en w a' w' H. injection H as <- _. exact Ha. Qed.

Lemma only_throw {A} (P : A -> Prop) e : only P (throw e).
Proof. intros en w a w' H. discriminate H. Qed.

Lemma only_bind {A B} (P : B -> Prop) (m : M A) (k : A -> M B) :
  (forall x, only P (k x)) -> only P (bind m k).
Proof.
  intros Hk en w b w' H. unfold bind in H.
  destruct (m en w) as [[x|e] w1]; [exact (Hk x en w1 b w' H)|discriminate H].
Qed.

Lemma only_bind_ret {A B} (P : B -> Prop) (a : A) (k : A -> M B) :
  only P (k a) -> only P (bind (ret a) k).
Proof. intros H. exact H. Qed.

Lemma only_catch {A} (P : A -> Prop) (m : M A) h :
  only P m -> (forall e, only P (h e)) -> only P (catch m h).
Proof.
  intros Hm Hh en w a w' H. unfold catch in H.
  destruct (m en w) as [[x|e] w1] eqn:E.
  - injection H as <- _. exact (Hm en w x w1 E).
  - exact (Hh e en w1 a w' H).
Qed.

(** [try { x = v } catch ..] around an expression that cannot throw. *)
Lemma only_catch_ret {A B} (P : B -> Prop) (a : A) h (k : A -> M B) :
  only P (k a) -> only P (bind (catch (ret a) h) k).
Proof. intros H. exact H. Qed.

Ltac only_tac :=
  repeat (cbv beta zeta;
    match goal with
    | |- only _ (bind (catch (ret _) _) _) => apply only_catch_ret
    | |- only _ (bind (ret _) _) => apply only_bind_ret
    | |- only _ (bind _ _) => apply only_bind; intro
    | |- only _ (catch _ _) => apply only_catch; [|intro]
    | |- only _ (ret _) => apply only_ret
    | |- only _ (throw _) => apply only_throw
    | |- only _ (match ?x with _ => _ end) => destruct x eqn:?
    end).


(** C9: [Object.fromEntries] over the form's entries is total ([from_entries]
    cannot throw), so the inner [catch] never runs and [POST] never answers
    400 "Invalid JSON data format", whatever the request and the world. *)
Theorem post_never_invalid_json :
  forall cdb req en w r w',
    POST cdb req en w = (r, w') ->
    r <> inl (mkResponse 400 (msg "Invalid JSON data format")).
Proof.
  intros cdb req en w r w' H.
  assert (Ho : only (fun a => a <> mkResponse 400 (msg "Invalid JSON data format"))
                    (POST cdb req)).
  { unfold POST. only_tac; discriminate. }
  destruct r as [a|e]; [|discriminate].
  intros Heq. injection Heq as Ha. exact (Ho en w a w' H Ha).
Qed.

Lemma post_never_invalid_json_witness :
  fst (POST Part001.connectDB (Some not_json_form) sample_env start)
  <> inl (mkResponse 400 (msg "Invalid JSON data format")).
Proof.
  apply (post_never_invalid_json Part001.connectDB (Some not_json_form) sample_env start
           (fst (POST Part001.connectDB (Some not_json_form) sample_env start))
           (snd (POST Part001.connectDB (Some not_json_form) sample_env start))).
  vm_compute. reflexivity.
Defined.

Lemma obj_get_set_same_nil k v o : obj_get k (obj_set k v o) = v.
Proof. rewrite <- (app_nil_r (obj_set k v o)). apply obj_get_set_same. Qed.

Lemma obj_get_set_other_nil k k' v o :
  k <> k' -> obj_get k (obj_set k' v o) = obj_get k o.
Proof.
  intros Hne. pose proof (obj_get_set_other k k' v o [] Hne) as H.
  rewrite !app_nil_r in H. exact H.
Qed.

(** C10 (as amended): for a form with an [image] file and no [k] entry
    ([k] being [tags] or [agenda]), [formData.get(k)] is [null], which
    [JSON.parse] reads as the text "null" and parses to [null]; [POST] never
    answers 400; and when the connection, the other field's parse, the
    upload and the insert succeed, it answers 201 and stores an event whose
    [k] is [null]. *)
Theorem post_missing_json_field_null :
  forall cdb en w fd f k,
    form_get "image" fd = Some (EFile f) ->
    (k = "tags" \/ k = "agenda") ->
    form_get k fd = None ->
    json_parse_text (entry_to_string (form_get k fd)) = Some JSNull /\
    (forall r w', POST cdb (Some fd) en w = (inl r, w') -> status r <> 400) /\
    (forall h w1 t a o,
       cdb en w = (inl h, w1) ->
       json_parse_text (entry_to_string (form_get "tags" fd)) = Some t ->
       json_parse_text (entry_to_string (form_get "agenda" fd)) = Some a ->
       e_upload en (file_bytes f) = inl (JSObj o) ->
       e_create_error en = None ->
       exists doc w2 resp,
         POST cdb (Some fd) en w = (inl resp, w2) /\ status resp = 201 /\
         w_store w2 = (w_store w1 ++ [mkStored doc (w_clock w1)])%list /\
         obj_get k doc = JSNull).
Proof.
  intros cdb en w fd f k Hi Hk Hn.
  assert (Hnull : json_parse_text (entry_to_string (form_get k fd)) = Some JSNull)
    by (rewrite Hn; reflexivity).
  split; [exact Hnull|]. split.
  - intros r w' H.
    assert (Ho : only (fun a => status a <> 400) (POST cdb (Some fd))).
    { unfold POST, form_data. only_tac;
        try (simpl; discriminate); rewrite Hi in *; discriminate. }
    exact (Ho en w r w' H).
  - intros h w1 t a o Hc Ht Ha Hu Hd. unfold_r. rewrite Hc, Hi. simpl.
    rewrite Ht, Ha. simpl. rewrite Hu, Hd.
    do 3 eexists. split; [reflexivity|]. split; [reflexivity|].
    split; [reflexivity|].
    destruct Hk as [-> | ->].
    + rewrite Ht in Hnull. injection Hnull as ->.
      rewrite obj_get_set_other_nil, obj_get_set_same_nil by discriminate. reflexivity.
    + rewrite Ha in Hnull. injection Hnull as ->. apply obj_get_set_same_nil.
Qed.

Lemma post_missing_json_field_null_witness :
  json_parse_text (entry_to_string (form_get "tags" no_tags_form)) = Some JSNull /\
  (forall r w', POST Part001.connectDB (Some no_tags_form) sample_env start = (inl r, w') ->
                status r <> 400) /\
  (forall h w1 t a o,
     Part001.connectDB sample_env start = (inl h, w1) ->
     json_parse_text (entry_to_string (form_get "tags" no_tags_form)) = Some t ->
     json_parse_text (entry_to_string (form_get "agenda" no_tags_form)) = Some a ->
     e_upload sample_env (file_bytes sample_file) = inl (JSObj o) ->
     e_create_error sample_env = None ->
     exists doc w2 resp,
       POST Part001.connectDB (Some no_tags_form) sample_env start = (inl resp, w2) /\
       status resp = 201 /\
       w_store w2 = (w_store w1 ++ [mkStored doc (w_clock w1)])%list /\
       obj_get "tags" doc = JSNull).
Proof.
  apply (post_missing_json_field_null Part001.connectDB sample_env start no_tags_form
           sample_file "tags"); [reflexivity | left; reflexivity | reflexivity].
Defined.

(** C10 as stated fails: with the upload rejected, the request without
    [tags] is answered 500 and no event is stored. *)
Lemma post_missing_tags_upload_failure :
  POST Part001.connectDB (Some no_tags_form) (upload_error_env image_error) start
  = (inl (mkResponse 500 (JSObj [("message", JSStr "Event Creation Failed");
                                 ("error", JSStr "Invalid image file")])),
     mkWorld (mkCache (Some 7) (Some 0)) 1 [] 0
             [IOConnect "mongodb://localhost/dev" 0; IOUpload (file_bytes sample_file)]).
Proof. vm_compute. reflexivity. Qed.

(** ** More of the connection cache *)

(** A call finding a promise in flight awaits it: no new connection
    attempt, the trace is unchanged; on success the handle is cached, on
    failure the promise is cleared. *)
Theorem connectDB_reuses_pending_promise :
  forall v en w p,
    conn (w_cache w) = None -> promise (w_cache w) = Some p ->
    connectDB_of v en w
    = match e_settle en p with
      | inl h => (inl h, set_cache (mkCache (Some h) (Some p)) w)
      | inr e => (inr e, set_cache (mkCache None None) w)
      end.
Proof.
  intros v en w p Hc Hp. destruct v; unfold_m; rewrite Hc, Hp; simpl;
    destruct (e_settle en p); rewrite ?Hp, ?Hc; reflexivity.
Qed.

Lemma connectDB_reuses_pending_promise_witness :
  connectDB_of V001 failing_env pending_world
  = match e_settle failing_env 0 with
    | inl h => (inl h, set_cache (mkCache (Some h) (Some 0)) pending_world)
    | inr e => (inr e, set_cache (mkCache None None) pending_world)
    end.
Proof.
  apply (connectDB_reuses_pending_promise V001 failing_env pending_world 0); reflexivity.
Defined.

(** From process start, the first call connects once, to the configured
    URI, under promise [0], and caches the handle on success. *)
Theorem connectDB_first_call :
  forall v en u h,
    variant_uri v en = Some u -> e_settle en 0 = inl h ->
    connectDB_of v en (initial_world empty_cache)
    = (inl h, mkWorld (mkCache (Some h) (Some 0)) 1 [] 0 [IOConnect u 0]).
Proof.
  intros v en u h Hu Hs. destruct v; simpl in Hu; unfold_m; simpl;
    [rewrite Hu|injection Hu as <-]; simpl; rewrite Hs; reflexivity.
Qed.

Lemma connectDB_first_call_witness :
  connectDB_of (V000 "mongodb://localhost/dev") sample_env (initial_world empty_cache)
  = (inl 7, mkWorld (mkCache (Some 7) (Some 0)) 1 [] 0
                    [IOConnect "mongodb://localhost/dev" 0]).
Proof.
  apply (connectDB_first_call (V000 "mongodb://localhost/dev") sample_env); reflexivity.
Defined.

(** After a successful call, re-evaluating either module (a hot reload
    finding [global.mongoose] set, with the URI present for part_000) keeps
    the same cache object, and the next call returns the same handle with
    no I/O. *)
Theorem connectDB_survives_reload :
  forall v en w h w',
    connectDB_of v en w = (inl h, w') ->
    Part001.load (Some (w_cache w')) = w_cache w' /\
    (forall u uri, uri_of u = Some uri ->
       Part000.load u (Some (w_cache w')) = inl (uri, w_cache w')) /\
    connectDB_of v en (set_cache (Part001.load (Some (w_cache w'))) w')
    = (inl h, set_cache (Part001.load (Some (w_cache w'))) w').
Proof.
  intros v en w h w' Hs. split; [reflexivity|]. split.
  - intros u uri Hu. unfold Part000.load. rewrite Hu. reflexivity.
  - apply connectDB_of_cached. simpl. exact (connectDB_of_success_conn v en w h w' Hs).
Qed.

Lemma connectDB_survives_reload_witness :
  Part001.load (Some (w_cache (snd (connectDB_of V001 sample_env start))))
    = w_cache (snd (connectDB_of V001 sample_env start)) /\
    (forall u uri, uri_of u = Some uri ->
     Part000.load u (Some (w_cache (snd (connectDB_of V001 sample_env start))))
     = inl (uri, w_cache (snd (connectDB_of V001 sample_env start)))) /\
    connectDB_of V001 sample_env
    (set_cache (Part001.load (Some (w_cache (snd (connectDB_of V001 sample_env start)))))
               (snd (connectDB_of V001 sample_env start)))
  = (inl 7, set_cache (Part001.load (Some (w_cache (snd (connectDB_of V001 sample_env start)))))
                      (snd (connectDB_of V001 sample_env start))).
Proof.
  apply (connectDB_survives_reload V001 sample_env start 7). vm_compute. reflexivity.
Defined.

Lemma connectDB_of_trace v en w r w' :
  connectDB_of v en w = (r, w') ->
  w_trace w' = w_trace w \/ exists u p, w_trace w' = (w_trace w ++ [IOConnect u p])%list.
Proof. destruct v; unfold_m; intros H; crush_m; eauto. Qed.

Lemma connects_call v en w r w' :
  connectDB_of v en w = (r, w') -> connects (w_trace w') <= connects (w_trace w) + 1.
Proof.
  intros H. destruct (connectDB_of_trace v en w r w' H) as [-> | [u [p ->]]];
    unfold connects; [lia|]. rewrite filter_app, length_app. simpl. lia.
Qed.

(** Over any sequence of calls, the connection attempts made number at most
    one more than the calls that threw. *)
Theorem connect_attempts_bounded :
  forall v en n w,
    connects (w_trace (snd (run_calls n (connectDB_of v) en w)))
    <= connects (w_trace w) + count_inr (fst (run_calls n (connectDB_of v) en w)) + 1.
Proof.
  intros v en n. induction n as [|n IH]; intros w; simpl; [lia|].
  destruct (connectDB_of v en w) as [r w1] eqn:E.
  pose proof (connects_call v en w r w1 E) as Hc.
  destruct r as [h|e].
  - rewrite (run_calls_fixed _ en w1 (inl h) n
               (connectDB_of_cached v en w1 h (connectDB_of_success_conn v en w h w1 E))).
    simpl. lia.
  - specialize (IH w1). destruct (run_calls n (connectDB_of v) en w1) as [rs w2].
    simpl in *. unfold count_inr in *. simpl. lia.
Qed.

(** ** More of the route *)

Lemma post_created_shape cdb req en w r w' :
  POST cdb req en w = (inl r, w') -> status r = 201 ->
  exists h w1 fd f t a res,
    req = Some fd /\ cdb en w = (inl h, w1) /\
    form_get "image" fd = Some (EFile f) /\
    json_parse_text (entry_to_string (form_get "tags" fd)) = Some t /\
    json_parse_text (entry_to_string (form_get "agenda" fd)) = Some a /\
    e_upload en (file_bytes f) = inl res /\ e_create_error en = None /\
    let doc := obj_set "agenda" a (obj_set "tags" t
                 (obj_set "image" (prop "secure_url" res) (from_entries fd))) in
    r = mkResponse 201 (JSObj [("message", JSStr "Event created successfully");
                               ("event", stored_js (mkStored doc (w_clock w1)))]) /\
    w' = mkWorld (w_cache w1) (w_next_promise w1)
                 (w_store w1 ++ [mkStored doc (w_clock w1)])%list (S (w_clock w1))
                 (w_trace w1 ++ [IOUpload (file_bytes f); IOInsert doc])%list.
Proof.
  intros H Hs. unfold POST, catch, bind in H.
  destruct (cdb en w) as [[h|e] w1] eqn:Hc; cbn -[json_parse_text] in H.
  2:{ injection H as <- <-. discriminate Hs. }
  destruct req as [fd|]; cbn -[json_parse_text] in H.
  2:{ injection H as <- <-. discriminate Hs. }
  destruct (entry_falsy (form_get "image" fd)) eqn:Ei; cbn -[json_parse_text] in H.
  { injection H as <- <-. discriminate Hs. }
  unfold json_parse in H.
  destruct (json_parse_text (entry_to_string (form_get "tags" fd))) as [t|] eqn:Et;
    cbn -[json_parse_text] in H.
  2:{ injection H as <- <-. discriminate Hs. }
  destruct (json_parse_text (entry_to_string (form_get "agenda" fd))) as [a|] eqn:Ea;
    cbn -[json_parse_text] in H.
  2:{ injection H as <- <-. discriminate Hs. }
  destruct (form_get "image" fd) as [[s|f]|] eqn:Eim; cbn -[json_parse_text] in H;
    [injection H as <- <-; discriminate Hs| |discriminate Ei].
  destruct (e_upload en (file_bytes f)) as [res|err] eqn:Eu; cbn -[json_parse_text] in H.
  2:{ injection H as <- <-. discriminate Hs. }
  destruct res; cbn -[json_parse_text] in H; try (injection H as <- <-; discriminate Hs).
  all: destruct (e_create_error en) eqn:Ed; cbn -[json_parse_text] in H;
    [injection H as <- <-; discriminate Hs|].
  all: injection H as <- <-.
  all: do 7 eexists; do 7 (split; [first [reflexivity | eassumption]|]);
    cbv zeta; split; [reflexivity|]; simpl; rewrite <- app_assoc; reflexivity.
Qed.

(** Every [POST] answered 201 connected first, then made exactly one upload
    and one insert, appended exactly one record stamped with the clock, and
    answered with that very record. *)
Theorem post_created_effects :
  forall cdb req en w r w',
    POST cdb req en w = (inl r, w') -> status r = 201 ->
    exists h w1 bytes doc,
      cdb en w = (inl h, w1) /\
      w_store w' = (w_store w1 ++ [mkStored doc (w_clock w1)])%list /\
      w_clock w' = S (w_clock w1) /\
      w_trace w' = (w_trace w1 ++ [IOUpload bytes; IOInsert doc])%list /\
      w_cache w' = w_cache w1 /\
      body r = JSObj [("message", JSStr "Event created successfully");
                      ("event", stored_js (mkStored doc (w_clock w1)))].
Proof.
  intros cdb req en w r w' H Hs.
  destruct (post_created_shape cdb req en w r w' H Hs)
    as (h & w1 & fd & f & t & a & res & _ & Hc & _ & _ & _ & _ & _ & Hr & Hw).
  subst r w'. do 4 eexists. split; [exact Hc|]. repeat split.
Qed.

Lemma post_created_effects_witness :
  exists h w1 bytes doc,
    Part001.connectDB sample_env start = (inl h, w1) /\
    w_store (snd (POST Part001.connectDB (Some sample_form) sample_env start))
      = (w_store w1 ++ [mkStored doc (w_clock w1)])%list /\
    w_clock (snd (POST Part001.connectDB (Some sample_form) sample_env start)) = S (w_clock w1) /\
    w_trace (snd (POST Part001.connectDB (Some sample_form) sample_env start))
      = (w_trace w1 ++ [IOUpload bytes; IOInsert doc])%list /\
    w_cache (snd (POST Part001.connectDB (Some sample_form) sample_env start)) = w_cache w1 /\
    body (mkResponse 201 (JSObj [("message", JSStr "Event created successfully");
      ("event", JSObj [("title", JSStr "Meetup"); ("image", JSStr sample_url);
                       ("tags", JSArr [JSStr "a"; JSStr "b"]); ("agenda", JSArr [JSStr "x"]);
                       ("createdAt", JSNum "0")])]))
    = JSObj [("message", JSStr "Event created successfully");
             ("event", stored_js (mkStored doc (w_clock w1)))].
Proof.
  apply (post_created_effects Part001.connectDB (Some sample_form) sample_env start);
    vm_compute; reflexivity.
Defined.

Lemma from_entries_get_aux k fd o :
  obj_get k (fold_left (fun o kv => obj_set (fst kv) (entry_js (snd kv)) o) fd o)
  = match form_get_last k fd with Some v => entry_js v | None => obj_get k o end.
Proof.
  revert o. induction fd as [|[k' v] fd IH]; intros o; simpl; [reflexivity|].
  rewrite IH. destruct (form_get_last k fd); [reflexivity|].
  destruct (String.eqb k k') eqn:E.
  - apply String.eqb_eq in E. subst. apply obj_get_set_same_nil.
  - apply obj_get_set_other_nil. apply String.eqb_neq, E.
Qed.

Lemma from_entries_get k fd :
  obj_get k (from_entries fd)
  = match form_get_last k fd with Some v => entry_js v | None => JSUndefined end.
Proof. apply from_entries_get_aux. Qed.

(** The record a 201 [POST] stores takes every field other than [image],
    [tags] and [agenda] from the LAST form entry of that name, while its
    [tags] and [agenda] are [JSON.parse] of the FIRST entry of that name. *)
Theorem post_stored_fields :
  forall cdb fd en w r w',
    POST cdb (Some fd) en w = (inl r, w') -> status r = 201 ->
    exists w1 doc,
      w_store w' = (w_store w1 ++ [mkStored doc (w_clock w1)])%list /\
      (forall k, k <> "image" -> k <> "tags" -> k <> "agenda" ->
         obj_get k doc = match form_get_last k fd with
                         | Some v => entry_js v
                         | None => JSUndefined
                         end) /\
      json_parse_text (entry_to_string (form_get "tags" fd)) = Some (obj_get "tags" doc) /\
      json_parse_text (entry_to_string (form_get "agenda" fd)) = Some (obj_get "agenda" doc).
Proof.
  intros cdb fd en w r w' H Hs.
  destruct (post_created_shape cdb (Some fd) en w r w' H Hs)
    as (h & w1 & fd' & f & t & a & res & Hfd & _ & _ & Et & Ea & _ & _ & _ & Hw).
  injection Hfd as <-. subst w'. do 2 eexists. split; [reflexivity|]. split; [|split].
  - intros k Hi Ht Ha.
    rewrite !obj_get_set_other_nil by assumption. apply from_entries_get.
  - rewrite obj_get_set_other_nil, obj_get_set_same_nil by discriminate. exact Et.
  - rewrite obj_get_set_same_nil. exact Ea.
Qed.

Lemma post_stored_fields_witness :
  exists w1 doc,
    w_store (snd (POST Part001.connectDB (Some repeated_form) sample_env start))
      = (w_store w1 ++ [mkStored doc (w_clock w1)])%list /\
    (forall k, k <> "image" -> k <> "tags" -> k <> "agenda" ->
       obj_get k doc = match form_get_last k repeated_form with
                       | Some v => entry_js v
                       | None => JSUndefined
                       end) /\
    json_parse_text (entry_to_string (form_get "tags" repeated_form))
      = Some (obj_get "tags" doc) /\
    json_parse_text (entry_to_string (form_get "agenda" repeated_form))
      = Some (obj_get "agenda" doc).
Proof.
  apply (post_stored_fields Part001.connectDB repeated_form sample_env start
           (fst (match POST Part001.connectDB (Some repeated_form) sample_env start with
                 | (inl r, _) => (r, tt) | (inr _, _) => (mkResponse 0 JSNull, tt) end))).
  - vm_compute. reflexivity.
  - vm_compute. reflexivity.
Defined.

(** A failing insert, after a successful upload, is answered 500 with the
    database error's message: the image stays uploaded and nothing is stored
    (there is no clean-up of the upload). *)
Theorem post_insert_failure_orphans_upload :
  forall cdb en w h w1 fd f t a o e,
    cdb en w = (inl h, w1) ->
    form_get "image" fd = Some (EFile f) ->
    json_parse_text (entry_to_string (form_get "tags" fd)) = Some t ->
    json_parse_text (entry_to_string (form_get "agenda" fd)) = Some a ->
    e_upload en (file_bytes f) = inl (JSObj o) ->
    e_create_error en = Some e ->
    POST cdb (Some fd) en w
    = (inl (mkResponse 500 (JSObj [("message", JSStr "Event Creation Failed");
                                   ("error", error_message e)])),
       mkWorld (w_cache w1) (w_next_promise w1) (w_store w1) (w_clock w1)
               (w_trace w1 ++ [IOUpload (file_bytes f)])%list).
Proof.
  intros cdb en w h w1 fd f t a o e Hc Hi Ht Ha Hu Hd. unfold_r. rewrite Hc, Hi. simpl.
  rewrite Ht, Ha. simpl. rewrite Hu, Hd. reflexivity.
Qed.

Lemma post_insert_failure_orphans_upload_witness :
  POST Part001.connectDB (Some sample_form) insert_error_env start
  = (inl (mkResponse 500 (JSObj [("message", JSStr "Event Creation Failed");
        ("error", error_message (JSError "ValidationError" "Event validation failed"))])),
     mkWorld (w_cache (snd (Part001.connectDB insert_error_env start)))
             (w_next_promise (snd (Part001.connectDB insert_error_env start)))
             (w_store (snd (Part001.connectDB insert_error_env start)))
             (w_clock (snd (Part001.connectDB insert_error_env start)))
             (w_trace (snd (Part001.connectDB insert_error_env start))
                ++ [IOUpload (file_bytes sample_file)])%list).
Proof.
  apply (post_insert_failure_orphans_upload Part001.connectDB insert_error_env start 7
           (snd (Part001.connectDB insert_error_env start)) sample_form sample_file
           (JSArr [JSStr "a"; JSStr "b"]) (JSArr [JSStr "x"])
           [("secure_url", JSStr sample_url)]
           (JSError "ValidationError" "Event validation failed")); vm_compute; reflexivity.
Defined.

(** An [image] sent as a text field, once the connection has succeeded:
    the empty string is falsy and answered 400 "Image file is required"
    whatever [tags] and [agenda] hold; any other text passes the check, and
    once [tags] and [agenda] parse, [file.arrayBuffer] is not a function, so
    the answer is 500.  Neither case uploads or inserts anything. *)
Theorem post_image_text_field :
  forall cdb en w h w1 fd s,
    cdb en w = (inl h, w1) ->
    form_get "image" fd = Some (EStr s) ->
    (s = EmptyString ->
     POST cdb (Some fd) en w = (inl (mkResponse 400 (msg "Image file is required")), w1)) /\
    (s <> EmptyString -> forall t a,
     json_parse_text (entry_to_string (form_get "tags" fd)) = Some t ->
     json_parse_text (entry_to_string (form_get "agenda" fd)) = Some a ->
     POST cdb (Some fd) en w
     = (inl (mkResponse 500 (JSObj [("message", JSStr "Event Creation Failed");
                                    ("error", JSStr "file.arrayBuffer is not a function")])),
        w1)).
Proof.
  intros cdb en w h w1 fd s Hc Hi. split.
  - intros ->. unfold_r. rewrite Hc, Hi. reflexivity.
  - intros Hne t a Ht Ha. unfold_r. rewrite Hc, Hi. simpl.
    apply String.eqb_neq in Hne. rewrite Hne, Ht, Ha. reflexivity.
Qed.

Lemma post_image_text_field_witness :
  (EmptyString = EmptyString ->
   POST Part001.connectDB (Some empty_image_form) sample_env start
   = (inl (mkResponse 400 (msg "Image file is required")),
      snd (Part001.connectDB sample_env start))) /\
  (EmptyString <> EmptyString -> forall t a,
   json_parse_text (entry_to_string (form_get "tags" empty_image_form)) = Some t ->
   json_parse_text (entry_to_string (form_get "agenda" empty_image_form)) = Some a ->
   POST Part001.connectDB (Some empty_image_form) sample_env start
   = (inl (mkResponse 500 (JSObj [("message", JSStr "Event Creation Failed");
                                  ("error", JSStr "file.arrayBuffer is not a function")])),
      snd (Part001.connectDB sample_env start))).
Proof.
  apply (post_image_text_field Part001.connectDB sample_env start 7
           (snd (Part001.connectDB sample_env start)) empty_image_form EmptyString);
    vm_compute; reflexivity.
Defined.

(** A body that [req.formData()] cannot parse is answered 500 right after
    the connection: no upload, no insert. *)
Theorem post_not_a_form :
  forall cdb en w h w1,
    cdb en w = (inl h, w1) ->
    POST cdb None en w
    = (inl (mkResponse 500 (JSObj [("message", JSStr "Event Creation Failed");
                                   ("error", JSStr "Could not parse content as FormData.")])),
       w1).
Proof. intros cdb en w h w1 Hc. unfold_r. rewrite Hc. reflexivity. Qed.

Lemma post_not_a_form_witness :
  POST Part001.connectDB None sample_env start
  = (inl (mkResponse 500 (JSObj [("message", JSStr "Event Creation Failed");
                                 ("error", JSStr "Could not parse content as FormData.")])),
     snd (Part001.connectDB sample_env start)).
Proof.
  apply (post_not_a_form Part001.connectDB sample_env start 7); vm_compute; reflexivity.
Defined.

(** An upload that resolves with no result ([undefined]) makes reading
    [secure_url] throw a [TypeError]: 500 after the upload, nothing stored. *)
Theorem post_upload_without_result :
  forall cdb en w h w1 fd f t a,
    cdb en w = (inl h, w1) ->
    form_get "image" fd = Some (EFile f) ->
    json_parse_text (entry_to_string (form_get "tags" fd)) = Some t ->
    json_parse_text (entry_to_string (form_get "agenda" fd)) = Some a ->
    e_upload en (file_bytes f) = inl JSUndefined ->
    POST cdb (Some fd) en w
    = (inl (mkResponse 500 (JSObj [("message", JSStr "Event Creation Failed");
        ("error", JSStr "Cannot read properties of undefined (reading 'secure_url')")])),
       mkWorld (w_cache w1) (w_next_promise w1) (w_store w1) (w_clock w1)
               (w_trace w1 ++ [IOUpload (file_bytes f)])%list).
Proof.
  intros cdb en w h w1 fd f t a Hc Hi Ht Ha Hu. unfold_r. rewrite Hc, Hi. simpl.
  rewrite Ht, Ha. simpl. rewrite Hu. reflexivity.
Qed.

Lemma post_upload_without_result_witness :
  POST Part001.connectDB (Some sample_form) empty_upload_env start
  = (inl (mkResponse 500 (JSObj [("message", JSStr "Event Creation Failed");
      ("error", JSStr "Cannot read properties of undefined (reading 'secure_url')")])),
     mkWorld (w_cache (snd (Part001.connectDB empty_upload_env start)))
             (w_next_promise (snd (Part001.connectDB empty_upload_env start)))
             (w_store (snd (Part001.connectDB empty_upload_env start)))
             (w_clock (snd (Part001.connectDB empty_upload_env start)))
             (w_trace (snd (Part001.connectDB empty_upload_env start))
                ++ [IOUpload (file_bytes sample_file)])%list).
Proof.
  apply (post_upload_without_result Part001.connectDB empty_upload_env start 7
           (snd (Part001.connectDB empty_upload_env start)) sample_form sample_file
           (JSArr [JSStr "a"; JSStr "b"]) (JSArr [JSStr "x"])); vm_compute; reflexivity.
Defined.

(** ** Order of the listed events *)

Lemma sorted_app_single {T} (R : T -> T -> Prop) l x :
  Sorted R l -> Forall (fun y => R y x) l -> Sorted R (l ++ [x]).
Proof.
  induction l as [|y l IH]; intros Hs Hf; simpl; [repeat constructor|].
  inversion Hs as [|? ? Hs' Hh]; inversion Hf as [|? ? Hy Hf']; subst.
  constructor; [exact (IH Hs' Hf')|].
  destruct l as [|z l]; simpl; constructor; [exact Hy|]. inversion Hh; assumption.
Qed.

Lemma older_trans : forall a b c, older a b -> older b c -> older a c.
Proof. intros a b c. unfold older. lia. Qed.

Lemma insert_desc_last x l :
  Forall (fun y => s_created_at x < s_created_at y) l -> insert_desc x l = (l ++ [x])%list.
Proof.
  induction l as [|y l IH]; intros Hf; [reflexivity|].
  inversion Hf as [|? ? Hy Hf']; subst. simpl.
  destruct (Nat.leb_spec (s_created_at y) (s_created_at x)); [lia|].
  rewrite (IH Hf'). reflexivity.
Qed.

(** On a store in insertion order, the newest-first sort is the reversal. *)
Lemma sort_desc_rev l : Sorted older l -> sort_desc l = rev l.
Proof.
  intros Hs. apply Sorted_StronglySorted in Hs; [|exact older_trans].
  induction Hs as [|x l Hs IH Hf]; [reflexivity|]. simpl. rewrite IH.
  apply insert_desc_last. apply Forall_rev. exact Hf.
Qed.

Lemma sorted_rev l : Sorted older l -> Sorted (fun a b => older b a) (rev l).
Proof.
  intros Hs. apply Sorted_StronglySorted in Hs; [|exact older_trans].
  induction Hs as [|x l Hs IH Hf]; [constructor|]. simpl.
  apply sorted_app_single; [exact IH|]. apply Forall_rev. exact Hf.
Qed.

Lemma connectDB_of_store v en w r w' :
  connectDB_of v en w = (r, w') -> w_store w' = w_store w /\ w_clock w' = w_clock w.
Proof. destruct v; unfold_m; intros H; crush_m; auto. Qed.

(** On a store in insertion order, a [GET] whose connection succeeds and
    whose query does not fail lists the stored events in reverse insertion
    order, which is strictly newest first, and only adds the query to the
    trace. *)
Theorem get_lists_reverse_insertion :
  forall v en w h w1,
    store_ok w -> connectDB_of v en w = (inl h, w1) -> e_find_error en = None ->
    GET (connectDB_of v) en w =
      (inl (mkResponse 200 (JSObj [("message", JSStr "Events fetched successfully");
                                   ("events", JSArr (map stored_js (rev (w_store w))))])),
       mkWorld (w_cache w1) (w_next_promise w1) (w_store w1) (w_clock w1)
               (w_trace w1 ++ [IOFind])%list) /\
    Sorted (fun a b => older b a) (rev (w_store w)).
Proof.
  intros v en w h w1 Hok Hc Hf. split; [|exact (sorted_rev _ (proj1 Hok))].
  destruct (connectDB_of_store v en w _ w1 Hc) as [E1 _].
  unfold GET, catch, bind. rewrite Hc.
  unfold event_find_sorted, bind, ask, get, put, ret. rewrite Hf.
  rewrite E1, (sort_desc_rev _ (proj1 Hok)). reflexivity.
Qed.

Lemma get_lists_reverse_insertion_witness :
  store_ok three_events /\
  GET (connectDB_of V001) sample_env three_events =
    (inl (mkResponse 200 (JSObj [("message", JSStr "Events fetched successfully");
                                 ("events", JSArr (map stored_js (rev (w_store three_events))))])),
     mkWorld (w_cache (snd (connectDB_of V001 sample_env three_events)))
             (w_next_promise (snd (connectDB_of V001 sample_env three_events)))
             (w_store (snd (connectDB_of V001 sample_env three_events)))
             (w_clock (snd (connectDB_of V001 sample_env three_events)))
             (w_trace (snd (connectDB_of V001 sample_env three_events)) ++ [IOFind])%list) /\
    Sorted (fun a b => older b a) (rev (w_store three_events)).
Proof.
  assert (Hok : store_ok three_events).
  { split.
    - repeat constructor; unfold older; simpl; lia.
    - repeat constructor; simpl; lia. }
  split; [exact Hok|].
  apply (get_lists_reverse_insertion V001 sample_env three_events 7); [exact Hok| |].
  - vm_compute. reflexivity.
  - reflexivity.
Defined.

(** With [MONGODB_URI] unset or empty and nothing cached or pending, both
    handlers answer 500 and leave the world as it was: no connection
    attempt, no upload, no insert. [POST] reports only the configuration
    error's message, [GET] the error value itself. *)
Theorem handlers_without_uri :
  forall req en w,
    uri_of (e_mongodb_uri en) = None ->
    conn (w_cache w) = None -> promise (w_cache w) = None ->
    POST Part001.connectDB req en w =
      (inl (mkResponse 500 (JSObj [("message", JSStr "Event Creation Failed");
                                   ("error", error_message config_error)])), w) /\
    GET Part001.connectDB en w =
      (inl (mkResponse 500 (JSObj [("message", JSStr "Event fetching failed");
                                   ("error", config_error)])), w).
Proof.
  intros req en w Hu Hc Hp.
  assert (E : Part001.connectDB en w = (inr config_error, w)).
  { unfold Part001.connectDB, bind, get, ask, throw. rewrite Hc, Hp, Hu. reflexivity. }
  split; unfold POST, GET, catch, bind; rewrite E; reflexivity.
Qed.

Lemma handlers_without_uri_witness :
  POST Part001.connectDB (Some sample_form) empty_uri_env start =
    (inl (mkResponse 500 (JSObj [("message", JSStr "Event Creation Failed");
                                 ("error", error_message config_error)])), start) /\
  GET Part001.connectDB empty_uri_env start =
    (inl (mkResponse 500 (JSObj [("message", JSStr "Event fetching failed");
                                 ("error", config_error)])), start).
Proof. apply handlers_without_uri; reflexivity. Defined.
